(** * Captain Data export processor (app.py): model and verification

    The program reads a CSV export into a table, decodes the JSON text of its
    [experiences] column, normalises the key [job_period] of each experience
    record, selects the current experience of each row, classifies its period
    against a list of tokens and scores the similarity of two company names.

    Python values are embedded as the inductive type [value]; a dict is an
    association list in insertion order.  Text is a [string] of 8-bit code
    points, read as the Latin-1 range of Python's [str].  A call that can
    raise returns an [outcome].  Built-ins and libraries the program calls but
    does not define ([json.loads], the [repr] of floats and containers) are
    parameters of the section that holds the program. *)

From Stdlib Require Import List String Ascii Bool Arith ZArith QArith Lia.
From Stdlib Require Import Permutation DecimalString Lqa.
Import ListNotations.

Local Open Scope string_scope.
Local Open Scope list_scope.
Local Open Scope nat_scope.

(** ** Python values *)

(** [VNaN] is the float [nan] (what pandas puts in an empty cell); a finite
    float is kept as the rational it denotes. *)
#[warnings="-register-all"]
Inductive value : Type :=
| VNone
| VNaN
| VBool (b : bool)
| VInt (z : Z)
| VFloat (q : Q)
| VStr (s : string)
| VList (l : list value)
| VDict (d : list (string * value)).

Definition pydict : Type := list (string * value).

Inductive exn : Type :=
| KeyError
| ValueError.

Inductive outcome (A : Type) : Type :=
| Ok (a : A)
| Raise (e : exn).

Arguments Ok {A} a.
Arguments Raise {A} e.

Definition bind {A B : Type} (m : outcome A) (k : A -> outcome B) : outcome B :=
  match m with
  | Ok a => k a
  | Raise e => Raise e
  end.

Notation "x <- m ;; k" := (bind m (fun x => k))
  (at level 61, m at next level, right associativity).

Fixpoint mapM {A B : Type} (f : A -> outcome B) (l : list A) : outcome (list B) :=
  match l with
  | [] => Ok []
  | a :: r => b <- f a ;; bs <- mapM f r ;; Ok (b :: bs)
  end.

(** ** Text: [str.strip], [str.lower], [in] *)

(** [str.isspace] on the code points below 256. *)
Definition isspace (c : ascii) : bool :=
  let n := nat_of_ascii c in
  ((9 <=? n) && (n <=? 13)) || ((28 <=? n) && (n <=? 32))
  || (n =? 133) || (n =? 160).

(** [str.lower] on one code point below 256: A-Z, and the Latin-1 capitals
    0xC0-0xDE except the multiplication sign 0xD7. *)
Definition lower_char (c : ascii) : ascii :=
  let n := nat_of_ascii c in
  if ((65 <=? n) && (n <=? 90))
     || ((192 <=? n) && (n <=? 222) && negb (n =? 215))
  then ascii_of_nat (n + 32) else c.

Fixpoint lower (s : string) : string :=
  match s with
  | EmptyString => EmptyString
  | String c r => String (lower_char c) (lower r)
  end.

Fixpoint lstrip (s : string) : string :=
  match s with
  | EmptyString => EmptyString
  | String c r => if isspace c then lstrip r else s
  end.

Fixpoint rstrip (s : string) : string :=
  match s with
  | EmptyString => EmptyString
  | String c r =>
      match rstrip r with
      | EmptyString => if isspace c then EmptyString else String c EmptyString
      | r' => String c r'
      end
  end.

Definition strip (s : string) : string := rstrip (lstrip s).

(** [hay.startswith(needle)]. *)
Fixpoint starts_with (needle hay : string) : bool :=
  match needle with
  | EmptyString => true
  | String a needle' =>
      match hay with
      | EmptyString => false
      | String b hay' => Ascii.eqb a b && starts_with needle' hay'
      end
  end.

(** [needle in hay] for two strings: [needle] starts at some position. *)
Fixpoint contains (needle hay : string) : bool :=
  starts_with needle hay
  || match hay with
     | EmptyString => false
     | String _ r => contains needle r
     end.

(** [not s] for a string. *)
Definition is_empty (s : string) : bool :=
  match s with
  | EmptyString => true
  | _ => false
  end.

(** ** Built-ins on values *)

(** Python's truth value. *)
Definition truthy (v : value) : bool :=
  match v with
  | VNone => false
  | VNaN => true
  | VBool b => b
  | VInt z => negb (z =? 0)%Z
  | VFloat q => negb (Qeq_bool q 0)
  | VStr s => negb (is_empty s)
  | VList l => match l with [] => false | _ => true end
  | VDict d => match d with [] => false | _ => true end
  end.

(** [a or b]. *)
Definition py_or (a b : value) : value := if truthy a then a else b.

Definition string_of_Z (z : Z) : string := NilZero.string_of_int (Z.to_int z).

(** Association lists keyed by strings: the entries of a dict, the columns of
    a table, the cells of a row. *)
Fixpoint assoc_get {A : Type} (k : string) (l : list (string * A)) : option A :=
  match l with
  | [] => None
  | (k', v) :: r => if String.eqb k k' then Some v else assoc_get k r
  end.

(** [l[k] = v]: in place when the key exists, at the end otherwise. *)
Fixpoint assoc_set {A : Type} (k : string) (v : A) (l : list (string * A))
  : list (string * A) :=
  match l with
  | [] => [(k, v)]
  | (k', v') :: r =>
      if String.eqb k k' then (k, v) :: r else (k', v') :: assoc_set k v r
  end.

Definition assoc_remove {A : Type} (k : string) (l : list (string * A))
  : list (string * A) :=
  filter (fun kv => negb (String.eqb k (fst kv))) l.

(** [k in d]. *)
Definition has_key (k : string) (d : pydict) : bool :=
  match assoc_get k d with
  | Some _ => true
  | None => false
  end.

(** [d.get(k)]: [None] when the key is absent. *)
Definition dict_get (k : string) (d : pydict) : value :=
  match assoc_get k d with
  | Some v => v
  | None => VNone
  end.

(** [d.pop(k)]: the value and the dict without the key; [KeyError] when absent. *)
Definition dict_pop (k : string) (d : pydict) : outcome (value * pydict) :=
  match assoc_get k d with
  | Some v => Ok (v, assoc_remove k d)
  | None => Raise KeyError
  end.

(** ** numpy and pandas: [pd.isna] and the truth value of its result *)

(** [pd.isna] on a scalar. *)
Definition checknull (v : value) : bool :=
  match v with
  | VNone | VNaN => true
  | _ => false
  end.

Definition children (v : value) : list value :=
  match v with
  | VList l => l
  | _ => []
  end.

Definition is_list_of_length (n : nat) (v : value) : bool :=
  match v with
  | VList l => List.length l =? n
  | _ => false
  end.

(** One more dimension of [np.asarray(l, dtype=object)]: the objects at the
    current depth are all lists of one length. *)
Definition next_dim (objs : list value) : option (list value) :=
  match objs with
  | VList l0 :: _ =>
      if forallb (is_list_of_length (List.length l0)) objs
      then Some (List.concat (map children objs))
      else None
  | _ => None
  end.

(** The elements of the object array numpy builds from a list: nesting is
    turned into dimensions as long as it is regular, up to [ndim] further
    dimensions. *)
Fixpoint np_object_array (ndim : nat) (objs : list value) : list value :=
  match ndim with
  | O => objs
  | S n =>
      match next_dim objs with
      | Some objs' => np_object_array n objs'
      | None => objs
      end
  end.

(** numpy's limit on the number of dimensions, the list itself being the first. *)
Definition NPY_MAXDIMS : nat := 64.

(** What [pd.isna] returns: a bool for a scalar (a dict counts as one), an
    array of bools for a list. *)
Inductive isna_result : Type :=
| IsnaScalar (b : bool)
| IsnaArray (bs : list bool).

Definition pd_isna (x : value) : isna_result :=
  match x with
  | VList l => IsnaArray (map checknull (np_object_array (NPY_MAXDIMS - 1) l))
  | _ => IsnaScalar (checknull x)
  end.

(** [bool(r)]: an array has a truth value only when it holds one element
    (for an empty array numpy raises since version 2.2; older versions
    answer [False] with a deprecation warning). *)
Definition isna_truth (r : isna_result) : outcome bool :=
  match r with
  | IsnaScalar b => Ok b
  | IsnaArray [b] => Ok b
  | IsnaArray _ => Raise ValueError
  end.

(** ** rapidfuzz: [ratio] *)

(** Length of a longest common subsequence. *)
Fixpoint lcs (a b : list ascii) : nat :=
  match a with
  | [] => 0
  | x :: a' =>
      (fix lcs_row (b : list ascii) : nat :=
         match b with
         | [] => 0
         | y :: b' =>
             if Ascii.eqb x y then S (lcs a' b')
             else Nat.max (lcs a' b) (lcs_row b')
         end) b
  end.

(** Insertions and deletions needed to turn one text into the other. *)
Definition indel_distance (a b : list ascii) : nat :=
  List.length a + List.length b - 2 * lcs a b.

(** Modelled from the spec: rapidfuzz's [ratio] is a library function, not
    part of the repository.  It is the normalised Indel similarity on the
    scale 0 to 100: [100 * (1 - d / (len a + len b))], and 100 for two empty
    texts.  The number is kept as an exact rational. *)
Definition ratio (s1 s2 : string) : Q :=
  let a := list_ascii_of_string s1 in
  let b := list_ascii_of_string s2 in
  let m := List.length a + List.length b in
  if m =? 0 then 100%Q
  else (100 * (1 - inject_Z (Z.of_nat (indel_distance a b))
                   / inject_Z (Z.of_nat m)))%Q.

(** ** Lines of a text: [str.splitlines] *)

(** The line boundaries of [str.splitlines] below 256: line feed, vertical
    tab, form feed, carriage return, the three separators 0x1C-0x1E and the
    next-line control 0x85. *)
Definition is_linebreak (c : ascii) : bool :=
  let n := nat_of_ascii c in
  ((10 <=? n) && (n <=? 13)) || ((28 <=? n) && (n <=? 30)) || (n =? 133).

(** [s.splitlines()]: the lines without their ends; a carriage return
    followed by a line feed ends one line, and a text that ends with a line
    boundary has no empty last line. *)
Fixpoint splitlines (s : string) : list string :=
  match s with
  | EmptyString => []
  | String c r =>
      if is_linebreak c then
        EmptyString ::
          match r with
          | String c' r' =>
              if Ascii.eqb c "013"%char && Ascii.eqb c' "010"%char
              then splitlines r' else splitlines r
          | EmptyString => splitlines r
          end
      else
        match splitlines r with
        | [] => [String c EmptyString]
        | line :: lines => String c line :: lines
        end
  end.

(** ** Tables *)

(** A data frame: its columns in order, each a name and the cells of its rows. *)
Definition table : Type := list (string * list value).

Definition nrows (t : table) : nat :=
  match t with
  | [] => 0
  | (_, col) :: _ => List.length col
  end.

(** Every column holds [n] cells. *)
Definition table_wf (n : nat) (t : table) : Prop :=
  Forall (fun c => List.length (snd c) = n) t.

Definition columns (t : table) : list string := map fst t.

(** [df[name]]. *)
Definition df_getitem (name : string) (t : table) : outcome (list value) :=
  match assoc_get name t with
  | Some col => Ok col
  | None => Raise KeyError
  end.

(** [df[name] = cells]. *)
Definition df_setitem (name : string) (cells : list value) (t : table) : table :=
  assoc_set name cells t.

(** Row [i] as [df.apply(..., axis=1)] passes it: the cell of every column. *)
Definition row_at (t : table) (i : nat) : list (string * value) :=
  map (fun c => (fst c, nth i (snd c) VNaN)) t.

Definition rows (t : table) : list (list (string * value)) :=
  map (row_at t) (seq 0 (nrows t)).

(** [r.get(name, default)]. *)
Definition row_get (name : string) (default : value) (r : list (string * value))
  : value :=
  match assoc_get name r with
  | Some v => v
  | None => default
  end.

(** ** Inputs of the concrete runs *)

(** A text in double quotes. *)
Definition quoted (s : string) : string :=
  String "034"%char (s ++ String "034"%char "").

(** The JSON text of one experience list, as a cell of the export holds it:
    one record, keyed by the alias [job_period]. *)
Definition sample_json : string :=
  "[{" ++ quoted "job_period" ++ ": " ++ quoted "Jan 2021 - Present" ++ ", "
  ++ quoted "company_name" ++ ": " ++ quoted "Acme" ++ "}]".

Definition sample_experiences : value :=
  VList [VDict [("job_period", VStr "Jan 2021 - Present");
                ("company_name", VStr "Acme")]].

(** [json.loads] on the texts of the runs below: [sample_json] decodes to
    [sample_experiences], the other texts used are not JSON. *)
Definition sample_json_loads (s : string) : option value :=
  if String.eqb s sample_json then Some sample_experiences else None.

(** The runs below take [str] of no float, list or dict. *)
Definition sample_repr (v : value) : string := "".

Definition past : value := VDict [("job_time_period", VStr "2019-2020")].
Definition current : value := VDict [("job_time_period", VStr "2021-Present")].

(** A table of the export: three rows, the second with a text that is not
    JSON and the third with an empty [experiences] cell. *)
Definition sample_table : table :=
  [("company_name", [VStr "Acme"; VStr "Initech"; VNaN]);
   ("experiences", [VStr sample_json; VStr "not json"; VNaN])].

(** A table without the [company_name] column. *)
Definition no_company_table : table :=
  [("experiences", [VStr sample_json; VNaN])].

(** A table without the [experiences] column. *)
Definition no_experiences_table : table :=
  [("company_name", [VStr "Acme"])].

(** A processed export uploaded again: it already has a derived column. *)
Definition reuploaded_table : table :=
  [("experiences", [VNaN]); ("current_job_time_period", [VStr "2015 - 2016"])].

(** ** The program *)

Section Program.

Set Default Proof Using "Type".

(** [json.loads] on a text: [None] when it raises. *)
Variable json_loads : string -> option value.

(** [str] of a finite float, a list or a dict. *)
Variable repr_other : value -> string.

(** [str(v)]. *)
Definition py_str (v : value) : string :=
  match v with
  | VStr s => s
  | VNone => "None"
  | VNaN => "nan"
  | VBool true => "True"
  | VBool false => "False"
  | VInt z => string_of_Z z
  | _ => repr_other v
  end.

(** [isinstance(x, (dict, list))]. *)
Definition is_dict_or_list (x : value) : bool :=
  match x with
  | VDict _ | VList _ => true
  | _ => false
  end.

(** [x == ""]. *)
Definition eq_empty_str (x : value) : bool :=
  match x with
  | VStr s => is_empty s
  | _ => false
  end.

(** [x is None]. *)
Definition is_none (x : value) : bool :=
  match x with
  | VNone => true
  | _ => false
  end.

(** [json.loads(x)] inside [try ... except Exception]: a text that does not
    decode, and a value that is no text at all (TypeError), give [None]. *)
Definition try_json_loads (x : value) : value :=
  match x with
  | VStr s =>
      match json_loads s with
      | Some v => v
      | None => VNone
      end
  | _ => VNone
  end.

Definition safe_json_loads (x : value) : outcome value :=
  na <- isna_truth (pd_isna x) ;;
  if na || eq_empty_str x || is_none x then Ok VNone
  else if is_dict_or_list x then Ok x
  else Ok (try_json_loads x).

(** One turn of the loop of [fix_job_period_key]. *)
Definition fix_item (item : value) : value :=
  match item with
  | VDict d =>
      if has_key "job_period" d && negb (has_key "job_time_period" d)
      then
        match dict_pop "job_period" d with
        | Ok (v, d') => VDict (assoc_set "job_time_period" v d')
        | Raise _ => item
        end
      else item
  | _ => item
  end.

Definition fix_job_period_key (experiences : value) : value :=
  match experiences with
  | VList l => VList (map fix_item l)
  | _ => experiences
  end.

Definition get_period (e : value) : string :=
  match e with
  | VDict d =>
      py_str (py_or (py_or (dict_get "job_time_period" d)
                           (dict_get "job_period" d))
                    (VStr ""))
  | _ => ""
  end.

(** The test of the loop: ["present" in get_period(e).lower()]. *)
Definition is_present (e : value) : bool :=
  contains "present" (lower (get_period e)).

(** [None] is returned as [VNone]. *)
Definition pick_current_experience (experiences : value) : value :=
  match experiences with
  | VList [] => VNone
  | VList ((e0 :: _) as l) =>
      match find is_present l with
      | Some e => e
      | None => e0
      end
  | _ => VNone
  end.

(** The loop over the tokens, on the stripped period [s]. *)
Fixpoint years2_scan (s : string) (years_list : list string) : string :=
  match years_list with
  | [] => "Valid"
  | y :: rest =>
      let y := strip y in
      if is_empty y then years2_scan s rest
      else if contains (lower y) (lower s) then "Invalid"
      else years2_scan s rest
  end.

Definition years2_invalid (period_text : value) (years_list : list string)
  : string :=
  match period_text with
  | VNone => ""
  | _ =>
      let s := strip (py_str period_text) in
      if is_empty s then "" else years2_scan s years_list
  end.

(** The lambda that fills [company_name_similarity_to_exp], on the two
    cells it reads from a row. *)
Definition similarity (a b : value) : value :=
  if negb (is_empty (strip (py_str a))) && negb (is_empty (strip (py_str b)))
  then VFloat (ratio (py_str a) (py_str b) / 100)%Q
  else VStr "".

(** The four fields read from the current experience of one row. *)
Definition current_fields (exps : value) : value * value * value * value :=
  match pick_current_experience exps with
  | VDict cur =>
      (py_or (py_or (dict_get "job_time_period" cur)
                    (dict_get "job_period" cur)) (VStr ""),
       py_or (dict_get "company_name" cur) (VStr ""),
       py_or (py_or (dict_get "title" cur) (dict_get "job_title" cur))
             (VStr ""),
       py_or (py_or (dict_get "linkedin_company_url" cur)
                    (dict_get "linkedin_company_url_cleaned" cur))
             (VStr ""))
  | _ => (VStr "", VStr "", VStr "", VStr "")
  end.

(** The body of [if uploaded:], from the table read from the CSV to the
    table handed to the export. *)
Definition pipeline (years2_list : list string) (df : table) : outcome table :=
  experiences <- df_getitem "experiences" df ;;
  parsed <- mapM safe_json_loads experiences ;;
  let df := df_setitem "experiences_json" parsed df in
  experiences_json <- df_getitem "experiences_json" df ;;
  let df :=
    df_setitem "experiences_json" (map fix_job_period_key experiences_json) df in
  experiences_json <- df_getitem "experiences_json" df ;;
  let fields := map current_fields experiences_json in
  let current_period := map (fun f => fst (fst (fst f))) fields in
  let current_company := map (fun f => snd (fst (fst f))) fields in
  let current_title := map (fun f => snd (fst f)) fields in
  let current_li_company_url := map (fun f => snd f) fields in
  let df := df_setitem "current_job_time_period" current_period df in
  let df := df_setitem "current_company_name_from_exp" current_company df in
  let df := df_setitem "current_job_title_from_exp" current_title df in
  let df :=
    df_setitem "current_linkedin_company_url_from_exp" current_li_company_url df in
  periods <- df_getitem "current_job_time_period" df ;;
  let df :=
    df_setitem "current_job_time_period_validity"
      (map (fun s => VStr (years2_invalid s years2_list)) periods) df in
  let df :=
    df_setitem "company_name_similarity_to_exp"
      (map (fun r => similarity (row_get "company_name" (VStr "") r)
                       (row_get "current_company_name_from_exp" (VStr "") r))
           (rows df)) df in
  Ok df.

(** The token list read from the text area:
    [[line.strip() for line in years2_text.splitlines() if line.strip()]]. *)
Definition years2_list (years2_text : string) : list string :=
  map strip (filter (fun line => negb (is_empty (strip line)))
               (splitlines years2_text)).

(** The default text of the text area: the years 2018 down to 2000, one per
    line. *)
Definition default_years2_text : string :=
  String.concat (String "010"%char "")
    ["2018"; "2017"; "2016"; "2015"; "2014"; "2013"; "2012"; "2011"; "2010";
     "2009"; "2008"; "2007"; "2006"; "2005"; "2004"; "2003"; "2002"; "2001";
     "2000"].

(** ** Vocabulary of the statements *)

(** [a] occurs in [b]. *)
Definition Substring (a b : string) : Prop :=
  exists p q : string, b = (p ++ a ++ q)%string.

(** A token of the list that counts against the stripped period [s]. *)
Definition token_hits (s y : string) : Prop :=
  strip y <> "" /\ Substring (lower (strip y)) (lower s).

Definition token_hitsb (s y : string) : bool :=
  negb (is_empty (strip y)) && contains (lower (strip y)) (lower s).

(** What the normaliser does to one entry [e] of the list, giving [e']:
    a dict with the alias and without the canonical key has the alias value
    moved under the canonical key, every other key being kept; any other
    entry is returned as it is. *)
Definition entry_normalised (e e' : value) : Prop :=
  (forall d,
      e = VDict d ->
      has_key "job_period" d = true -> has_key "job_time_period" d = false ->
      exists d',
        e' = VDict d'
        /\ has_key "job_period" d' = false
        /\ has_key "job_time_period" d' = true
        /\ dict_get "job_time_period" d' = dict_get "job_period" d
        /\ forall k, k <> "job_period" -> k <> "job_time_period" ->
                     assoc_get k d' = assoc_get k d)
  /\ (forall d, e = VDict d -> has_key "job_time_period" d = true -> e' = e)
  /\ (forall d, e = VDict d -> has_key "job_period" d = false -> e' = e)
  /\ ((forall d, e <> VDict d) -> e' = e).

(** A cell as [pd.read_csv] makes it: a text, a number, a bool or [nan]. *)
Definition is_csv_cell (v : value) : bool :=
  match v with
  | VNaN | VBool _ | VInt _ | VFloat _ | VStr _ => true
  | VNone | VList _ | VDict _ => false
  end.

Definition csv_table (df : table) : Prop :=
  Forall (fun c => Forall (fun v => is_csv_cell v = true) (snd c)) df.

(** The columns the pipeline adds, in the order it adds them. *)
Definition derived_columns : list string :=
  ["experiences_json"; "current_job_time_period";
   "current_company_name_from_exp"; "current_job_title_from_exp";
   "current_linkedin_company_url_from_exp";
   "current_job_time_period_validity"; "company_name_similarity_to_exp"].

(** What the parser makes of a CSV cell. *)
Definition parse_cell (x : value) : value :=
  if checknull x || eq_empty_str x then VNone else try_json_loads x.

(** The table the pipeline holds before it scores the similarity, once the
    [experiences] column is decoded and normalised into [ej]. *)
Definition derive_fields (ys : list string) (ej : list value) (df : table) : table :=
  let fields := map current_fields ej in
  let periods := map (fun f => fst (fst (fst f))) fields in
  let df := df_setitem "experiences_json" ej df in
  let df := df_setitem "current_job_time_period" periods df in
  let df :=
    df_setitem "current_company_name_from_exp"
      (map (fun f => snd (fst (fst f))) fields) df in
  let df :=
    df_setitem "current_job_title_from_exp" (map (fun f => snd (fst f)) fields) df in
  let df :=
    df_setitem "current_linkedin_company_url_from_exp"
      (map (fun f => snd f) fields) df in
  df_setitem "current_job_time_period_validity"
    (map (fun s => VStr (years2_invalid s ys)) periods) df.

(** The similarity column of a table. *)
Definition similarity_column (df : table) : list value :=
  map (fun r => similarity (row_get "company_name" (VStr "") r)
                  (row_get "current_company_name_from_exp" (VStr "") r))
      (rows df).

(** The table the pipeline returns. *)
Definition derive (ys : list string) (ej : list value) (df : table) : table :=
  let df := derive_fields ys ej df in
  df_setitem "company_name_similarity_to_exp" (similarity_column df) df.

(** A name is new to a table to which columns of other names were added. *)
Ltac fresh_column Hfresh :=
  rewrite ?map_app, ?in_app_iff; simpl;
  let H := fresh "H" in
  intros H;
  repeat (destruct H as [H|H]; try discriminate H; try contradiction H);
  try (revert H; apply Hfresh; unfold derived_columns; simpl; tauto).

(** Every character of the text passes the test. *)
Fixpoint all_chars (f : ascii -> bool) (s : string) : bool :=
  match s with
  | EmptyString => true
  | String c r => f c && all_chars f r
  end.

(** A token as the text area should hold it: not empty, with no blank at
    either end and no line boundary inside. *)
Definition clean_token (t : string) : Prop :=
  t <> "" /\ strip t = t /\ all_chars (fun c => negb (is_linebreak c)) t = true.


(** The four fields read from one entry: the body of the loop over
    [df["experiences_json"]] once the current experience is selected. *)
Definition fields_of (cur : value) : value * value * value * value :=
  match cur with
  | VDict cur =>
      (py_or (py_or (dict_get "job_time_period" cur)
                    (dict_get "job_period" cur)) (VStr ""),
       py_or (dict_get "company_name" cur) (VStr ""),
       py_or (py_or (dict_get "title" cur) (dict_get "job_title" cur))
             (VStr ""),
       py_or (py_or (dict_get "linkedin_company_url" cur)
                    (dict_get "linkedin_company_url_cleaned" cur))
             (VStr ""))
  | _ => (VStr "", VStr "", VStr "", VStr "")
  end.





(** * Verification *)

(** ** Text *)

Lemma is_empty_true (s : string) : is_empty s = true <-> s = "".
Proof.
  destruct s; simpl; split; intro H; try reflexivity; discriminate H.
Qed.

Lemma is_empty_false (s : string) : is_empty s = false <-> s <> "".
Proof.
  destruct s; simpl; split; intro H; try discriminate; try reflexivity.
  now contradiction H.
Qed.

Lemma starts_with_app (n h : string) :
  starts_with n h = true <-> exists q : string, h = (n ++ q)%string.
Proof.
  revert h; induction n as [|c n IH]; intros h; simpl.
  - split; [intros _; now exists h | reflexivity].
  - destruct h as [|c' h].
    + split; [discriminate | intros [q Hq]; discriminate Hq].
    + rewrite andb_true_iff, IH. destruct (Ascii.eqb_spec c c') as [->|Hne].
      * split.
        -- intros [_ [q Hq]]. exists q. now rewrite Hq.
        -- intros [q Hq]. split; [reflexivity|]. exists q. now injection Hq.
      * split; [intros [H _]; discriminate H|].
        intros [q Hq]. injection Hq. congruence.
Qed.

Lemma contains_Substring (n h : string) :
  contains n h = true <-> Substring n h.
Proof.
  induction h as [|c h IH].
  - simpl. rewrite orb_false_r, starts_with_app. split.
    + intros [q Hq]. now exists "", q.
    + intros [p [q Hpq]]. destruct p; [now exists q | discriminate Hpq].
  - cbn [contains]. rewrite orb_true_iff, starts_with_app, IH. split.
    + intros [[q Hq] | [p [q Hpq]]].
      * now exists "", q.
      * exists (String c p), q. now rewrite Hpq.
    + intros [p [q Hpq]]. destruct p as [|c' p].
      * left. now exists q.
      * right. exists p, q. now injection Hpq.
Qed.

Lemma strip_empty : strip "" = "".
Proof. reflexivity. Qed.

(** ** Association lists *)

Lemma assoc_get_set_same {A : Type} (k : string) (v : A) (l : list (string * A)) :
  assoc_get k (assoc_set k v l) = Some v.
Proof.
  induction l as [|[k' v'] l IH]; simpl.
  - now rewrite String.eqb_refl.
  - destruct (String.eqb k k') eqn:E; simpl; rewrite ?String.eqb_refl, ?E; auto.
Qed.

Lemma assoc_get_set_other {A : Type} (k k' : string) (v : A) (l : list (string * A)) :
  k <> k' -> assoc_get k (assoc_set k' v l) = assoc_get k l.
Proof.
  intros Hne. induction l as [|[k0 v0] l IH]; simpl.
  - destruct (String.eqb_spec k k'); [contradiction | reflexivity].
  - destruct (String.eqb_spec k' k0) as [->|Hk0]; simpl.
    + destruct (String.eqb_spec k k0); [contradiction | reflexivity].
    + now rewrite IH.
Qed.

Lemma assoc_get_remove_same {A : Type} (k : string) (l : list (string * A)) :
  assoc_get k (assoc_remove k l) = None.
Proof.
  induction l as [|[k' v'] l IH]; simpl; [reflexivity|].
  destruct (String.eqb k k') eqn:E; simpl; [assumption|].
  now rewrite E.
Qed.

Lemma assoc_get_remove_other {A : Type} (k k' : string) (l : list (string * A)) :
  k <> k' -> assoc_get k (assoc_remove k' l) = assoc_get k l.
Proof.
  intros Hne. induction l as [|[k0 v0] l IH]; simpl; [reflexivity|].
  destruct (String.eqb_spec k' k0) as [->|Hk0]; simpl.
  - destruct (String.eqb_spec k k0); [contradiction | assumption].
  - now rewrite IH.
Qed.

Lemma assoc_get_In {A : Type} (k : string) (l : list (string * A)) :
  In k (map fst l) <-> exists v, assoc_get k l = Some v.
Proof.
  induction l as [|[k' v'] l IH]; simpl.
  - split; [contradiction | intros [v Hv]; discriminate Hv].
  - destruct (String.eqb_spec k k') as [->|Hne].
    + split; [intros _; now exists v' | now left].
    + rewrite <- IH. split; [intros [H|H]; [congruence | assumption] | now right].
Qed.

Lemma assoc_get_None {A : Type} (k : string) (l : list (string * A)) :
  ~ In k (map fst l) <-> assoc_get k l = None.
Proof.
  rewrite assoc_get_In. destruct (assoc_get k l) as [v|].
  - split; [intros H; contradiction H; now exists v | discriminate].
  - split; [reflexivity | intros _ [v Hv]; discriminate Hv].
Qed.

Lemma assoc_set_fresh {A : Type} (k : string) (v : A) (l : list (string * A)) :
  ~ In k (map fst l) -> assoc_set k v l = l ++ [(k, v)].
Proof.
  induction l as [|[k' v'] l IH]; simpl; intros Hn; [reflexivity|].
  destruct (String.eqb_spec k k') as [->|Hne].
  - contradiction Hn. now left.
  - rewrite IH; [reflexivity | intros H; apply Hn; now right].
Qed.

(** ** The validity classifier *)

Lemma token_hitsb_spec (s y : string) :
  token_hitsb s y = true <-> token_hits s y.
Proof.
  unfold token_hitsb, token_hits.
  now rewrite andb_true_iff, negb_true_iff, is_empty_false, contains_Substring.
Qed.

Lemma years2_scan_existsb (s : string) (ts : list string) :
  years2_scan s ts = if existsb (token_hitsb s) ts then "Invalid" else "Valid".
Proof.
  induction ts as [|y ts IH]; simpl; [reflexivity|].
  unfold token_hitsb at 1.
  destruct (is_empty (strip y)); simpl; [exact IH|].
  destruct (contains (lower (strip y)) (lower s)); simpl; [reflexivity | exact IH].
Qed.

Lemma years2_scan_Invalid (s : string) (ts : list string) :
  years2_scan s ts = "Invalid" <-> exists y, In y ts /\ token_hits s y.
Proof.
  rewrite years2_scan_existsb.
  destruct (existsb (token_hitsb s) ts) eqn:E.
  - split; [intros _ | reflexivity].
    apply existsb_exists in E. destruct E as [y [Hin Hy]].
    exists y. split; [assumption | now apply token_hitsb_spec].
  - split; [discriminate|]. intros [y [Hin Hy]].
    assert (existsb (token_hitsb s) ts = true) as E'.
    { apply existsb_exists. exists y. split; [assumption | now apply token_hitsb_spec]. }
    congruence.
Qed.

Lemma years2_scan_Valid (s : string) (ts : list string) :
  years2_scan s ts = "Valid" <-> ~ exists y, In y ts /\ token_hits s y.
Proof.
  rewrite <- years2_scan_Invalid, years2_scan_existsb.
  destruct (existsb (token_hitsb s) ts); split; intro H;
    try reflexivity; try discriminate.
  now contradiction H.
Qed.

(** The three outcomes, on the period text as the code reads it. *)
Lemma years2_invalid_cases (x : value) (ts : list string) :
  years2_invalid x ts =
    if is_none x || is_empty (strip (py_str x)) then ""
    else years2_scan (strip (py_str x)) ts.
Proof.
  destruct x; simpl; try reflexivity;
    match goal with |- context [is_empty ?s] => destruct (is_empty s) end;
    reflexivity.
Qed.

Lemma is_none_true (x : value) : is_none x = true <-> x = VNone.
Proof.
  destruct x; simpl; split; intro H; try reflexivity; discriminate H.
Qed.

(** C2.  The validity classifier returns one of [""], ["Valid"], ["Invalid"].
    It returns [""] exactly when the input is [None] or its text strips to
    the empty string.  Otherwise it returns ["Invalid"] exactly when some
    token, not empty once stripped, occurs in the stripped text, both in
    lower case, and ["Valid"] when there is none.  The result is the same for
    every reordering of the tokens. *)
Theorem years2_invalid_spec (x : value) (ts : list string) :
  let s := strip (py_str x) in
  let blank := x = VNone \/ s = "" in
  let hit :=
    exists y, In y ts /\ strip y <> "" /\ Substring (lower (strip y)) (lower s) in
  (years2_invalid x ts = "" \/ years2_invalid x ts = "Valid"
   \/ years2_invalid x ts = "Invalid")
  /\ (years2_invalid x ts = "" <-> blank)
  /\ (years2_invalid x ts = "Invalid" <-> ~ blank /\ hit)
  /\ (years2_invalid x ts = "Valid" <-> ~ blank /\ ~ hit)
  /\ (forall ts', Permutation ts ts' ->
                  years2_invalid x ts' = years2_invalid x ts).
Proof.
  clear json_loads. intros s blank hit.
  assert (Hscan : forall l, years2_scan s l = "Valid" \/ years2_scan s l = "Invalid").
  { intros l. rewrite years2_scan_existsb.
    destruct (existsb (token_hitsb s) l); [now right | now left]. }
  assert (Hblank : is_none x || is_empty s = true <-> blank).
  { unfold blank. now rewrite orb_true_iff, is_none_true, is_empty_true. }
  assert (Hperm : forall ts', Permutation ts ts' ->
                              years2_scan s ts' = years2_scan s ts).
  { intros ts' P. destruct (Hscan ts) as [E|E]; rewrite E.
    - apply years2_scan_Valid. apply years2_scan_Valid in E.
      intros [y [Hin Hy]]. apply E. exists y. split; [|assumption].
      apply Permutation_in with (l := ts'); [now apply Permutation_sym | assumption].
    - apply years2_scan_Invalid. apply years2_scan_Invalid in E.
      destruct E as [y [Hin Hy]]. exists y. split; [|assumption].
      now apply Permutation_in with (l := ts). }
  assert (Hcases := years2_invalid_cases x).
  fold s in Hcases.
  destruct (is_none x || is_empty s) eqn:B.
  - assert (blank) as Hb by now apply Hblank.
    rewrite (Hcases ts).
    split; [now left|]. split; [tauto|]. split; [|split].
    + split; [discriminate | tauto].
    + split; [discriminate | tauto].
    + intros ts' _. now rewrite Hcases.
  - assert (~ blank) as Hb by (rewrite <- Hblank; congruence).
    rewrite (Hcases ts).
    split; [right; apply Hscan|]. split; [|split; [|split]].
    + split; [|tauto].
      intros E. destruct (Hscan ts) as [E'|E']; rewrite E' in E; discriminate E.
    + rewrite years2_scan_Invalid. unfold token_hits, hit. tauto.
    + rewrite years2_scan_Valid. unfold token_hits, hit. tauto.
    + intros ts' P. rewrite Hcases. now apply Hperm.
Qed.

Lemma py_str_idem (x : value) : py_str (VStr (py_str x)) = py_str x.
Proof. reflexivity. Qed.

(** C10.  The validity classifier works on the text [str(x)] of an input
    that is not [None]: classifying [x] and classifying [str(x)] give the same
    result.  The integer 2015 with the token list [["2015"]] is ["Invalid"]. *)
Theorem years2_invalid_coerces :
  (forall (x : value) (ts : list string),
      x <> VNone ->
      years2_invalid x ts = years2_invalid (VStr (py_str x)) ts)
  /\ years2_invalid (VInt 2015) ["2015"] = "Invalid".
Proof.
  split; [|reflexivity].
  intros x ts Hx. rewrite !years2_invalid_cases, py_str_idem.
  destruct x; try reflexivity. now contradiction Hx.
Qed.

(** ** The current-experience selector *)

Lemma is_present_spec (e : value) :
  is_present e = true <-> Substring "present" (lower (get_period e)).
Proof. unfold is_present. apply contains_Substring. Qed.

Lemma find_first {A : Type} (f : A -> bool) (pre post : list A) (e : A) :
  (forall a, In a pre -> f a = false) -> f e = true ->
  find f (pre ++ e :: post) = Some e.
Proof.
  intros Hpre He. induction pre as [|a pre IH]; simpl.
  - now rewrite He.
  - rewrite (Hpre a (or_introl eq_refl)). apply IH.
    intros b Hb. apply Hpre. now right.
Qed.

Lemma find_none_iff {A : Type} (f : A -> bool) (l : list A) :
  find f l = None <-> forall a, In a l -> f a = false.
Proof.
  split; [apply find_none|].
  induction l as [|a l IH]; simpl; intros H; [reflexivity|].
  rewrite (H a (or_introl eq_refl)). apply IH. intros b Hb. apply H. now right.
Qed.

(** The period text of an entry, case by case. *)
Lemma get_period_cases (e : value) :
  (forall d, e = VDict d -> truthy (dict_get "job_time_period" d) = true ->
             get_period e = py_str (dict_get "job_time_period" d))
  /\ (forall d, e = VDict d -> truthy (dict_get "job_time_period" d) = false ->
                truthy (dict_get "job_period" d) = true ->
                get_period e = py_str (dict_get "job_period" d))
  /\ (forall d, e = VDict d -> truthy (dict_get "job_time_period" d) = false ->
                truthy (dict_get "job_period" d) = false ->
                get_period e = "")
  /\ ((forall d, e <> VDict d) -> get_period e = "").
Proof.
  split; [|split; [|split]].
  - intros d -> H. unfold get_period, py_or. rewrite H; cbn iota. now rewrite H.
  - intros d -> H1 H2. unfold get_period, py_or. rewrite H1; cbn iota.
    now rewrite H2.
  - intros d -> H1 H2. unfold get_period, py_or. rewrite H1; cbn iota.
    now rewrite H2.
  - intros H. destruct e; try reflexivity. now contradiction (H d).
Qed.

(** C3.  The selector returns [None] for an input that is not a list (so for
    [None]) and for the empty list.  On a non-empty list it returns the first
    entry whose period text contains "present" in lower case, and the entry at
    index 0 when no entry does.  The period text of a dict is the text of its
    [job_time_period] value when that is truthy, else of its [job_period]
    value when that is truthy, else the empty string; an entry that is not a
    dict has the empty period text. *)
Theorem pick_current_experience_spec (x : value) :
  ((forall l, x <> VList l) -> pick_current_experience x = VNone)
  /\ (x = VList [] -> pick_current_experience x = VNone)
  /\ (forall pre e post,
         x = VList (pre ++ e :: post) ->
         (forall e', In e' pre ->
                     ~ Substring "present" (lower (get_period e'))) ->
         Substring "present" (lower (get_period e)) ->
         pick_current_experience x = e)
  /\ (forall e0 rest,
         x = VList (e0 :: rest) ->
         (forall e', In e' (e0 :: rest) ->
                     ~ Substring "present" (lower (get_period e'))) ->
         pick_current_experience x = e0)
  /\ (forall d,
         truthy (dict_get "job_time_period" d) = true ->
         get_period (VDict d) = py_str (dict_get "job_time_period" d))
  /\ (forall d,
         truthy (dict_get "job_time_period" d) = false ->
         truthy (dict_get "job_period" d) = true ->
         get_period (VDict d) = py_str (dict_get "job_period" d))
  /\ (forall d,
         truthy (dict_get "job_time_period" d) = false ->
         truthy (dict_get "job_period" d) = false ->
         get_period (VDict d) = "")
  /\ (forall e, (forall d, e <> VDict d) -> get_period e = "").
Proof.
  split; [|split; [|split; [|split; [|split; [|split; [|split]]]]]].
  - intros H. destruct x; try reflexivity. now contradiction (H l).
  - now intros ->.
  - intros pre e post -> Hpre He.
    assert (find is_present (pre ++ e :: post) = Some e) as F.
    { apply find_first.
      - intros a Ha. destruct (is_present a) eqn:E; [|reflexivity].
        apply is_present_spec in E. now contradiction (Hpre a Ha).
      - now apply is_present_spec. }
    unfold pick_current_experience.
    destruct (pre ++ e :: post) as [|e0 l'] eqn:L; [now destruct pre|].
    cbv zeta. now rewrite F.
  - intros e0 rest -> Hall. unfold pick_current_experience.
    assert (find is_present (e0 :: rest) = None) as F.
    { apply find_none_iff. intros a Ha.
      destruct (is_present a) eqn:E; [|reflexivity].
      apply is_present_spec in E. now contradiction (Hall a Ha). }
    cbv zeta. now rewrite F.
  - intros d. now apply (get_period_cases (VDict d)).
  - intros d. now apply (get_period_cases (VDict d)).
  - intros d. now apply (get_period_cases (VDict d)).
  - intros e. apply (get_period_cases e).
Qed.

(** C8.  A result of the selector that is not [None] is an entry of the list
    it was given. *)
Theorem pick_current_experience_member (x r : value) :
  pick_current_experience x = r -> r <> VNone ->
  exists l, x = VList l /\ In r l.
Proof.
  intros Hr Hn. unfold pick_current_experience in Hr.
  destruct x; try (now contradiction Hn).
  exists l. split; [reflexivity|].
  destruct l as [|e0 l']; [now contradiction Hn|].
  cbv zeta in Hr.
  destruct (find is_present (e0 :: l')) as [e|] eqn:F.
  - subst r. now apply find_some in F.
  - subst r. now left.
Qed.

(** ** The key normaliser *)

Lemma fix_item_renames (d : pydict) :
  has_key "job_period" d = true -> has_key "job_time_period" d = false ->
  exists v,
    assoc_get "job_period" d = Some v
    /\ fix_item (VDict d)
       = VDict (assoc_set "job_time_period" v (assoc_remove "job_period" d)).
Proof.
  intros H1 H2. unfold fix_item, dict_pop. rewrite H1, H2. simpl.
  unfold has_key in H1. destruct (assoc_get "job_period" d) as [v|]; [|discriminate].
  now exists v.
Qed.

Lemma fix_item_keeps (e : value) :
  (forall d, e = VDict d ->
             has_key "job_period" d = false \/ has_key "job_time_period" d = true) ->
  fix_item e = e.
Proof.
  intros H. destruct e; try reflexivity.
  unfold fix_item. destruct (H d eq_refl) as [E|E]; rewrite E; simpl;
    [reflexivity | now rewrite andb_false_r].
Qed.

Lemma fix_item_spec (e : value) : entry_normalised e (fix_item e).
Proof.
  split; [|split; [|split]].
  - intros d -> H1 H2. destruct (fix_item_renames d H1 H2) as [v [Hv ->]].
    eexists. split; [reflexivity|]. unfold has_key, dict_get.
    rewrite assoc_get_set_same, Hv.
    rewrite assoc_get_set_other, assoc_get_remove_same by discriminate.
    repeat split; try reflexivity.
    intros k Hk1 Hk2.
    rewrite assoc_get_set_other, assoc_get_remove_other by assumption.
    reflexivity.
  - intros d -> H. apply fix_item_keeps. intros d' [= <-]. now right.
  - intros d -> H. apply fix_item_keeps. intros d' [= <-]. now left.
  - intros H. apply fix_item_keeps. intros d ->. now contradiction (H d).
Qed.

Lemma fix_item_idempotent (e : value) : fix_item (fix_item e) = fix_item e.
Proof.
  destruct e; try reflexivity.
  destruct (has_key "job_period" d) eqn:H1.
  - destruct (has_key "job_time_period" d) eqn:H2.
    + rewrite !(fix_item_keeps (VDict d)); auto;
        intros d' [= <-]; now right.
    + destruct (fix_item_renames d H1 H2) as [v [Hv ->]].
      apply fix_item_keeps. intros d' [= <-]. left. unfold has_key.
      now rewrite assoc_get_set_other, assoc_get_remove_same by discriminate.
  - rewrite !(fix_item_keeps (VDict d)); auto; intros d' [= <-]; now left.
Qed.

(** C6.  On a list the normaliser returns a list of the same length whose
    entry at each index is the input entry normalised: the alias
    [job_period] is renamed to [job_time_period] exactly in the dicts that
    hold the alias and not the canonical key; a dict that holds the canonical
    key is returned unchanged, and so is an entry that is not a dict.  An
    input that is not a list is returned unchanged. *)
Theorem fix_job_period_key_spec (x : value) :
  (forall l,
      x = VList l ->
      exists l',
        fix_job_period_key x = VList l'
        /\ List.length l' = List.length l
        /\ forall i e,
            nth_error l i = Some e ->
            exists e', nth_error l' i = Some e' /\ entry_normalised e e')
  /\ ((forall l, x <> VList l) -> fix_job_period_key x = x).
Proof.
  split.
  - intros l ->. exists (map fix_item l).
    split; [reflexivity|]. split; [apply length_map|].
    intros i e Hi. exists (fix_item e).
    split; [now apply map_nth_error | apply fix_item_spec].
  - intros H. destruct x; try reflexivity. now contradiction (H l).
Qed.

(** C9.  The normaliser is idempotent. *)
Theorem fix_job_period_key_idempotent (x : value) :
  fix_job_period_key (fix_job_period_key x) = fix_job_period_key x.
Proof.
  destruct x; try reflexivity. simpl. f_equal. rewrite map_map.
  apply map_ext. intros e. apply fix_item_idempotent.
Qed.

(** ** The similarity scorer *)

Lemma lcs_nil_r (a : list ascii) : lcs a [] = 0.
Proof. now destruct a. Qed.

Lemma lcs_cons (x y : ascii) (a b : list ascii) :
  lcs (x :: a) (y :: b) =
    if Ascii.eqb x y then S (lcs a b)
    else Nat.max (lcs a (y :: b)) (lcs (x :: a) b).
Proof. reflexivity. Qed.

Lemma lcs_le (a b : list ascii) :
  lcs a b <= List.length a /\ lcs a b <= List.length b.
Proof.
  revert b. induction a as [|x a IHa]; intros b; [simpl; lia|].
  induction b as [|y b IHb]; [rewrite lcs_nil_r; simpl; lia|].
  rewrite lcs_cons. destruct (Ascii.eqb x y).
  - destruct (IHa b). simpl. lia.
  - destruct (IHa (y :: b)). destruct IHb. simpl in *. lia.
Qed.

Lemma lcs_same (a : list ascii) : lcs a a = List.length a.
Proof.
  induction a as [|x a IH]; [reflexivity|].
  rewrite lcs_cons, Ascii.eqb_refl, IH. reflexivity.
Qed.

Lemma indel_distance_le (a b : list ascii) :
  indel_distance a b <= List.length a + List.length b.
Proof. unfold indel_distance. lia. Qed.

Lemma indel_distance_same (a : list ascii) : indel_distance a a = 0.
Proof. unfold indel_distance. rewrite lcs_same. lia. Qed.

Lemma ratio_range (s1 s2 : string) : (0 <= ratio s1 s2 /\ ratio s1 s2 <= 100)%Q.
Proof.
  unfold ratio.
  set (a := list_ascii_of_string s1). set (b := list_ascii_of_string s2).
  destruct (List.length a + List.length b =? 0) eqn:E.
  - split; unfold Qle; simpl; lia.
  - apply Nat.eqb_neq in E.
    assert (Hd := indel_distance_le a b).
    set (d := indel_distance a b) in *. set (m := List.length a + List.length b) in *.
    assert (0 < inject_Z (Z.of_nat m))%Q as Hm.
    { unfold Qlt, inject_Z. simpl. lia. }
    assert (0 <= inject_Z (Z.of_nat d) / inject_Z (Z.of_nat m))%Q as H0.
    { apply Qle_shift_div_l; [assumption|].
      unfold Qle, inject_Z. simpl. lia. }
    assert (inject_Z (Z.of_nat d) / inject_Z (Z.of_nat m) <= 1)%Q as H1.
    { apply Qle_shift_div_r; [assumption|].
      rewrite Qmult_1_l, <- Zle_Qle. lia. }
    set (r := (inject_Z (Z.of_nat d) / inject_Z (Z.of_nat m))%Q) in *.
    split; lra.
Qed.

Lemma ratio_same (s : string) : (ratio s s == 100)%Q.
Proof.
  unfold ratio. set (a := list_ascii_of_string s).
  destruct (List.length a + List.length a =? 0) eqn:E; [reflexivity|].
  apply Nat.eqb_neq in E. rewrite indel_distance_same.
  assert (~ inject_Z (Z.of_nat (List.length a + List.length a)) == 0)%Q as Hm.
  { unfold Qeq, inject_Z. simpl. lia. }
  simpl (Z.of_nat 0). field. exact Hm.
Qed.

(** C7.  The similarity scorer on two texts returns the empty string when
    either text is blank once stripped, and otherwise a number between 0 and
    1; for one same non-blank text on both sides the number is 1. *)
Theorem similarity_spec (a b : string) :
  (strip a = "" \/ strip b = "" -> similarity (VStr a) (VStr b) = VStr "")
  /\ (strip a <> "" -> strip b <> "" ->
      exists q, similarity (VStr a) (VStr b) = VFloat q /\ (0 <= q /\ q <= 1)%Q)
  /\ (strip a <> "" ->
      exists q, similarity (VStr a) (VStr a) = VFloat q /\ (q == 1)%Q).
Proof.
  unfold similarity. cbn [py_str]. split; [|split].
  - intros [H|H]; rewrite H; simpl; [reflexivity | now rewrite andb_false_r].
  - intros Ha Hb. apply is_empty_false in Ha, Hb. rewrite Ha, Hb. simpl.
    eexists. split; [reflexivity|].
    destruct (ratio_range a b) as [H0 H1].
    set (r := ratio a b) in *. split.
    + apply Qle_shift_div_l; [reflexivity | lra].
    + apply Qle_shift_div_r; [reflexivity | lra].
  - intros Ha. apply is_empty_false in Ha. rewrite Ha. simpl.
    eexists. split; [reflexivity|]. rewrite ratio_same. reflexivity.
Qed.

(** ** The JSON cell parser *)

(** On every input that is not a list the parser returns: [None] for [None],
    [nan] and the empty text, a dict as it is, the decoded value for a text
    that decodes, and [None] for anything else. *)
Lemma safe_json_loads_not_list (x : value) :
  (forall l, x <> VList l) ->
  safe_json_loads x =
    Ok (if checknull x || eq_empty_str x then VNone
        else match x with
             | VDict _ => x
             | _ => try_json_loads x
             end).
Proof.
  intros H. destruct x; try reflexivity.
  - simpl. unfold safe_json_loads. simpl. now destruct (is_empty s).
  - now contradiction (H l).
Qed.



(** C4, at the failing input.  Given a list of two experience records the
    parser raises [ValueError] instead of returning the list, and given the
    list [[None]] it returns [None] instead of the list. *)
Theorem safe_json_loads_list_fails :
  safe_json_loads
    (VList [VDict [("job_period", VStr "2019-2020")];
            VDict [("job_period", VStr "2021-Present")]])
  = Raise ValueError
  /\ safe_json_loads (VList [VNone]) = Ok VNone.
Proof. split; reflexivity. Qed.

(** ** The pipeline *)

Lemma safe_json_loads_csv_cell (x : value) :
  is_csv_cell x = true -> safe_json_loads x = Ok (parse_cell x).
Proof.
  intros H. rewrite safe_json_loads_not_list.
  - destruct x; try reflexivity; discriminate H.
  - intros l ->. discriminate H.
Qed.

Lemma mapM_safe_json_loads (col : list value) :
  Forall (fun v => is_csv_cell v = true) col ->
  mapM safe_json_loads col = Ok (map parse_cell col).
Proof.
  induction 1 as [|x col Hx _ IH]; simpl; [reflexivity|].
  now rewrite (safe_json_loads_csv_cell x Hx), IH.
Qed.

Lemma assoc_set_set {A : Type} (k : string) (v v' : A) (l : list (string * A)) :
  assoc_set k v' (assoc_set k v l) = assoc_set k v' l.
Proof.
  induction l as [|[k0 v0] l IH]; simpl.
  - now rewrite String.eqb_refl.
  - destruct (String.eqb k k0) eqn:E; simpl.
    + now rewrite String.eqb_refl.
    + now rewrite E, IH.
Qed.

Lemma assoc_set_keys {A : Type} (k k' : string) (v : A) (l : list (string * A)) :
  In k (map fst (assoc_set k' v l)) <-> k = k' \/ In k (map fst l).
Proof.
  clear json_loads repr_other. induction l as [|[k0 v0] l IH]; simpl.
  - intuition congruence.
  - destruct (String.eqb_spec k' k0) as [->|Hne]; simpl.
    + intuition congruence.
    + rewrite IH. intuition congruence.
Qed.

Lemma assoc_get_Forall {A : Type} (P : string * A -> Prop) (k : string) (v : A)
      (l : list (string * A)) :
  Forall P l -> assoc_get k l = Some v -> exists k', P (k', v).
Proof.
  induction 1 as [|[k0 v0] l H0 _ IH]; simpl; [discriminate|].
  destruct (String.eqb k k0); [|exact IH].
  intros [= <-]. now exists k0.
Qed.

Lemma table_wf_set (n : nat) (name : string) (cells : list value) (t : table) :
  table_wf n t -> List.length cells = n -> table_wf n (df_setitem name cells t).
Proof.
  unfold table_wf, df_setitem. intros H Hc.
  induction H as [|[k0 v0] l H0 Hl IH]; simpl.
  - constructor; [exact Hc | constructor].
  - destruct (String.eqb name k0).
    + constructor; [exact Hc | assumption].
    + constructor; [exact H0 | exact IH].
Qed.

Lemma nrows_wf (n : nat) (t : table) : table_wf n t -> t <> [] -> nrows t = n.
Proof.
  intros H Hne. destruct t as [|[k c] t]; [now contradiction Hne|].
  now inversion H.
Qed.

Lemma df_setitem_not_nil (name : string) (cells : list value) (t : table) :
  df_setitem name cells t <> [].
Proof.
  unfold df_setitem. destruct t as [|[k c] t]; simpl; [discriminate|].
  destruct (String.eqb name k); discriminate.
Qed.

Lemma length_rows (t : table) : List.length (rows t) = nrows t.
Proof. unfold rows. now rewrite length_map, length_seq. Qed.

Lemma row_at_get (t : table) (i : nat) (name : string) :
  ~ In name (columns t) -> assoc_get name (row_at t i) = None.
Proof.
  intros H. apply assoc_get_None. unfold row_at. rewrite map_map. simpl.
  exact H.
Qed.

Lemma pipeline_run (ys : list string) (df : table) (col : list value) :
  assoc_get "experiences" df = Some col ->
  Forall (fun v => is_csv_cell v = true) col ->
  pipeline ys df
  = Ok (derive ys (map fix_job_period_key (map parse_cell col)) df).
Proof.
  intros Hcol Hcsv.
  unfold pipeline, derive, derive_fields, similarity_column, df_getitem, df_setitem.
  rewrite Hcol. cbn [bind]. rewrite (mapM_safe_json_loads col Hcsv). cbn [bind].
  cbv zeta. rewrite assoc_get_set_same. cbn [bind].
  rewrite assoc_set_set, assoc_get_set_same. cbn [bind].
  rewrite !assoc_get_set_other by discriminate.
  rewrite assoc_get_set_same. cbn [bind]. reflexivity.
Qed.

Lemma pipeline_no_experiences (ys : list string) (df : table) :
  ~ In "experiences" (columns df) -> pipeline ys df = Raise KeyError.
Proof.
  intros H. apply assoc_get_None in H. unfold pipeline, df_getitem.
  now rewrite H.
Qed.

Lemma experiences_column (n : nat) (df : table) :
  table_wf n df -> csv_table df -> In "experiences" (columns df) ->
  exists col,
    assoc_get "experiences" df = Some col
    /\ List.length col = n
    /\ Forall (fun v => is_csv_cell v = true) col.
Proof.
  intros Hwf Hcsv Hin. apply assoc_get_In in Hin. destruct Hin as [col Hcol].
  exists col. split; [assumption|]. split.
  - destruct (assoc_get_Forall _ _ _ _ Hwf Hcol) as [k Hk]. exact Hk.
  - destruct (assoc_get_Forall _ _ _ _ Hcsv Hcol) as [k Hk]. exact Hk.
Qed.

Lemma derive_fields_wf (ys : list string) (n : nat) (ej : list value) (df : table) :
  table_wf n df -> List.length ej = n -> table_wf n (derive_fields ys ej df).
Proof.
  intros Hwf Hej. unfold derive_fields. cbv zeta.
  repeat (apply table_wf_set; [|now rewrite ?length_map]).
  exact Hwf.
Qed.

Lemma derive_fields_nrows (ys : list string) (n : nat) (ej : list value) (df : table) :
  table_wf n df -> List.length ej = n -> nrows (derive_fields ys ej df) = n.
Proof.
  intros Hwf Hej. apply nrows_wf; [now apply derive_fields_wf|].
  apply df_setitem_not_nil.
Qed.

Lemma derive_fields_columns (ys : list string) (ej : list value) (df : table)
      (name : string) :
  In name (columns (derive_fields ys ej df)) ->
  In name derived_columns \/ In name (columns df).
Proof.
  clear json_loads. unfold derive_fields, columns, df_setitem. cbv zeta.
  rewrite !assoc_set_keys. unfold derived_columns. simpl. intuition.
Qed.

Lemma map_constant {A B : Type} (f : A -> B) (c : B) (l : list A) :
  (forall a, In a l -> f a = c) -> map f l = repeat c (List.length l).
Proof.
  induction l as [|a l IH]; simpl; intros H; [reflexivity|].
  rewrite (H a (or_introl eq_refl)), IH; [reflexivity|].
  intros b Hb. apply H. now right.
Qed.

Lemma similarity_blank_l (b : value) : similarity (VStr "") b = VStr "".
Proof. reflexivity. Qed.

Lemma similarity_column_blank (df : table) :
  ~ In "company_name" (columns df) ->
  similarity_column df = repeat (VStr "") (nrows df).
Proof.
  intros H. unfold similarity_column. rewrite <- length_rows.
  apply map_constant. intros r Hr. unfold rows in Hr.
  apply in_map_iff in Hr. destruct Hr as [i [<- _]].
  unfold row_get. rewrite (row_at_get df i "company_name" H).
  apply similarity_blank_l.
Qed.

Lemma derive_wf (ys : list string) (n : nat) (ej : list value) (df : table) :
  table_wf n df -> List.length ej = n -> table_wf n (derive ys ej df).
Proof.
  intros Hwf Hej. unfold derive. cbv zeta. apply table_wf_set.
  - now apply derive_fields_wf.
  - unfold similarity_column. rewrite length_map, length_rows.
    now apply derive_fields_nrows.
Qed.

(** C5, as the code has it.  A table without the [experiences] column stops
    the run with [KeyError].  A table with it is processed to the end, and
    when the [company_name] column is absent the similarity column holds the
    empty string in every row. *)
Theorem pipeline_missing_column (ys : list string) (n : nat) (df : table) :
  table_wf n df -> csv_table df ->
  (~ In "experiences" (columns df) -> pipeline ys df = Raise KeyError)
  /\ (In "experiences" (columns df) ->
      exists df',
        pipeline ys df = Ok df'
        /\ table_wf n df'
        /\ (~ In "company_name" (columns df) ->
            df_getitem "company_name_similarity_to_exp" df'
            = Ok (repeat (VStr "") n))).
Proof.
  intros Hwf Hcsv. split; [apply pipeline_no_experiences|].
  intros Hin.
  destruct (experiences_column n df Hwf Hcsv Hin) as [col [Hcol [Hlen Hcells]]].
  set (ej := map fix_job_period_key (map parse_cell col)).
  assert (List.length ej = n) as Hej by (unfold ej; now rewrite !length_map).
  exists (derive ys ej df). split; [now apply pipeline_run|].
  assert (Hn := derive_fields_nrows ys n ej df Hwf Hej).
  split; [now apply derive_wf|].
  intros Hno. unfold derive, df_getitem, df_setitem. cbv zeta.
  rewrite assoc_get_set_same, similarity_column_blank, Hn; [reflexivity|].
  intros Hc. apply derive_fields_columns in Hc. destruct Hc as [Hc|Hc].
  - unfold derived_columns in Hc. simpl in Hc.
    repeat (destruct Hc as [Hc|Hc]; [discriminate Hc|]). exact Hc.
  - now apply Hno.
Qed.

Lemma derive_appends (ys : list string) (ej : list value) (df : table) :
  (forall c, In c derived_columns -> ~ In c (columns df)) ->
  exists c2 c3 c4 c5 c6 c7,
    derive ys ej df
    = df ++ [("experiences_json", ej); ("current_job_time_period", c2);
             ("current_company_name_from_exp", c3);
             ("current_job_title_from_exp", c4);
             ("current_linkedin_company_url_from_exp", c5);
             ("current_job_time_period_validity", c6);
             ("company_name_similarity_to_exp", c7)].
Proof.
  intros Hfresh. unfold columns in Hfresh.
  unfold derive, derive_fields, df_setitem. cbv zeta.
  rewrite (assoc_set_fresh "experiences_json" ej df)
    by fresh_column Hfresh.
  rewrite (assoc_set_fresh "current_job_time_period")
    by fresh_column Hfresh.
  rewrite (assoc_set_fresh "current_company_name_from_exp")
    by fresh_column Hfresh.
  rewrite (assoc_set_fresh "current_job_title_from_exp")
    by fresh_column Hfresh.
  rewrite (assoc_set_fresh "current_linkedin_company_url_from_exp")
    by fresh_column Hfresh.
  rewrite (assoc_set_fresh "current_job_time_period_validity")
    by fresh_column Hfresh.
  rewrite (assoc_set_fresh "company_name_similarity_to_exp")
    by fresh_column Hfresh.
  repeat rewrite <- app_assoc. simpl.
  repeat eexists.
Qed.

(** C1, as the code has it.  For a table read from a CSV file that has an
    [experiences] column and no column named like a derived column, the
    pipeline returns the input table, its columns unchanged and in place,
    followed by exactly the seven derived columns, in this order and under
    these names, each holding one cell per input row; the row count is that
    of the input. *)
Theorem pipeline_appends (ys : list string) (n : nat) (df : table) :
  table_wf n df -> csv_table df ->
  In "experiences" (columns df) ->
  (forall c, In c derived_columns -> ~ In c (columns df)) ->
  exists cols,
    pipeline ys df = Ok (df ++ cols)
    /\ columns cols
       = ["experiences_json"; "current_job_time_period";
          "current_company_name_from_exp"; "current_job_title_from_exp";
          "current_linkedin_company_url_from_exp";
          "current_job_time_period_validity";
          "company_name_similarity_to_exp"]
    /\ table_wf n cols
    /\ nrows (df ++ cols) = nrows df.
Proof.
  intros Hwf Hcsv Hin Hfresh.
  destruct (experiences_column n df Hwf Hcsv Hin) as [col [Hcol [Hlen Hcells]]].
  set (ej := map fix_job_period_key (map parse_cell col)).
  assert (List.length ej = n) as Hej by (unfold ej; now rewrite !length_map).
  destruct (derive_appends ys ej df Hfresh) as [c2 [c3 [c4 [c5 [c6 [c7 E]]]]]].
  eexists. split; [|split; [|split]].
  - rewrite (pipeline_run ys df col Hcol Hcells). fold ej. rewrite E. reflexivity.
  - reflexivity.
  - assert (W := derive_wf ys n ej df Hwf Hej). rewrite E in W.
    unfold table_wf in W. apply Forall_app in W. exact (proj2 W).
  - destruct df as [|[k c] df]; [contradiction Hin | reflexivity].
Qed.

(** * Further properties of the program *)

(** ** Text: stripping and lowering *)

Lemma rstrip_idempotent (s : string) : rstrip (rstrip s) = rstrip s.
Proof.
  induction s as [|c s IH]; [reflexivity|]. simpl.
  destruct (rstrip s) as [|c' r'] eqn:E.
  - destruct (isspace c) eqn:Ec; [reflexivity|]. simpl. now rewrite Ec.
  - simpl. simpl in IH. rewrite IH. reflexivity.
Qed.

Lemma lstrip_fixed (s : string) :
  match s with
  | EmptyString => True
  | String c _ => isspace c = false
  end ->
  lstrip s = s.
Proof. destruct s as [|c s]; simpl; [reflexivity | now intros ->]. Qed.

Lemma lstrip_head (s : string) :
  match lstrip s with
  | EmptyString => True
  | String c _ => isspace c = false
  end.
Proof.
  induction s as [|c s IH]; simpl; [exact I|].
  destruct (isspace c) eqn:E; [exact IH | exact E].
Qed.

Lemma rstrip_head (s : string) :
  match s with
  | EmptyString => True
  | String c _ => isspace c = false
  end ->
  match rstrip s with
  | EmptyString => True
  | String c _ => isspace c = false
  end.
Proof.
  destruct s as [|c s]; simpl; [trivial|]. intros E.
  destruct (rstrip s); [now rewrite E | exact E].
Qed.

Lemma strip_idempotent (s : string) : strip (strip s) = strip s.
Proof.
  unfold strip.
  rewrite (lstrip_fixed (rstrip (lstrip s))).
  - apply rstrip_idempotent.
  - apply rstrip_head, lstrip_head.
Qed.

Lemma isspace_lower_char (c : ascii) : isspace (lower_char c) = isspace c.
Proof. destruct c as [[] [] [] [] [] [] [] []]; reflexivity. Qed.

Lemma lower_char_idempotent (c : ascii) : lower_char (lower_char c) = lower_char c.
Proof. destruct c as [[] [] [] [] [] [] [] []]; reflexivity. Qed.

Lemma lower_idempotent (s : string) : lower (lower s) = lower s.
Proof.
  induction s as [|c s IH]; simpl; [reflexivity|].
  now rewrite lower_char_idempotent, IH.
Qed.

Lemma is_empty_lower (s : string) : is_empty (lower s) = is_empty s.
Proof. now destruct s. Qed.

Lemma lstrip_lower (s : string) : lstrip (lower s) = lower (lstrip s).
Proof.
  induction s as [|c s IH]; simpl; [reflexivity|].
  rewrite isspace_lower_char. now destruct (isspace c).
Qed.

Lemma rstrip_lower (s : string) : rstrip (lower s) = lower (rstrip s).
Proof.
  induction s as [|c s IH]; simpl; [reflexivity|].
  rewrite IH, isspace_lower_char.
  destruct (rstrip s); simpl; [now destruct (isspace c) | reflexivity].
Qed.

Lemma strip_lower (s : string) : strip (lower s) = lower (strip s).
Proof. unfold strip. now rewrite lstrip_lower, rstrip_lower. Qed.

(** ** The validity classifier, beyond its contract *)

Lemma years2_scan_lower_text (s : string) (ts : list string) :
  years2_scan (lower s) ts = years2_scan s ts.
Proof.
  induction ts as [|y ts IH]; simpl; [reflexivity|].
  now rewrite lower_idempotent, IH.
Qed.

Lemma years2_scan_lower_tokens (s : string) (ts : list string) :
  years2_scan s (map lower ts) = years2_scan s ts.
Proof.
  induction ts as [|y ts IH]; simpl; [reflexivity|].
  now rewrite strip_lower, is_empty_lower, lower_idempotent, IH.
Qed.

Lemma years2_scan_strip_tokens (s : string) (ts : list string) :
  years2_scan s (map strip ts) = years2_scan s ts.
Proof.
  induction ts as [|y ts IH]; simpl; [reflexivity|].
  now rewrite strip_idempotent, IH.
Qed.

Lemma years2_scan_app (s : string) (ts1 ts2 : list string) :
  years2_scan s (ts1 ++ ts2) = "Invalid"
  <-> years2_scan s ts1 = "Invalid" \/ years2_scan s ts2 = "Invalid".
Proof.
  rewrite !years2_scan_existsb, existsb_app.
  destruct (existsb (token_hitsb s) ts1), (existsb (token_hitsb s) ts2); simpl;
    split; intros H; try reflexivity; try (now left); try (now right);
    try discriminate H; destruct H as [H|H]; discriminate H.
Qed.

(** The classifier does not look at the case of the text or of the tokens:
    lowering either beforehand gives the same result. *)
Theorem years2_invalid_case_insensitive (x : value) (s : string)
        (ts : list string) :
  years2_invalid (VStr (lower s)) ts = years2_invalid (VStr s) ts
  /\ years2_invalid x (map lower ts) = years2_invalid x ts.
Proof.
  split.
  - rewrite !years2_invalid_cases. cbn [py_str is_none orb].
    rewrite strip_lower, is_empty_lower.
    destruct (is_empty (strip s)); [reflexivity | apply years2_scan_lower_text].
  - rewrite !years2_invalid_cases.
    destruct (is_none x || is_empty (strip (py_str x)));
      [reflexivity | apply years2_scan_lower_tokens].
Qed.

(** The classifier does not look at blanks around the text or around a
    token: stripping either beforehand gives the same result. *)
Theorem years2_invalid_strip_insensitive (x : value) (s : string)
        (ts : list string) :
  years2_invalid (VStr (strip s)) ts = years2_invalid (VStr s) ts
  /\ years2_invalid x (map strip ts) = years2_invalid x ts.
Proof.
  split.
  - rewrite !years2_invalid_cases. cbn [py_str]. now rewrite strip_idempotent.
  - rewrite !years2_invalid_cases.
    destruct (is_none x || is_empty (strip (py_str x)));
      [reflexivity | apply years2_scan_strip_tokens].
Qed.

(** Tokens only ever add to what is invalid: with no token nothing is
    ["Invalid"], and with two lists put together a text is ["Invalid"]
    exactly when it is with one of them. *)
Theorem years2_invalid_app (x : value) (ts1 ts2 : list string) :
  years2_invalid x [] <> "Invalid"
  /\ (years2_invalid x (ts1 ++ ts2) = "Invalid"
      <-> years2_invalid x ts1 = "Invalid" \/ years2_invalid x ts2 = "Invalid").
Proof.
  rewrite !years2_invalid_cases.
  destruct (is_none x || is_empty (strip (py_str x))).
  - split; [discriminate|]. split; [discriminate|]. intros [H|H]; discriminate H.
  - split; [simpl; discriminate | apply years2_scan_app].
Qed.

(** ** The token list of the text area *)

Lemma all_chars_lstrip (f : ascii -> bool) (s : string) :
  all_chars f s = true -> all_chars f (lstrip s) = true.
Proof.
  induction s as [|c s IH]; simpl; [trivial|].
  intros H. apply andb_true_iff in H. destruct H as [Hc Hs].
  destruct (isspace c); [now apply IH | simpl; now rewrite Hc, Hs].
Qed.

Lemma all_chars_rstrip (f : ascii -> bool) (s : string) :
  all_chars f s = true -> all_chars f (rstrip s) = true.
Proof.
  induction s as [|c s IH]; simpl; [trivial|].
  intros H. apply andb_true_iff in H. destruct H as [Hc Hs].
  specialize (IH Hs). destruct (rstrip s) as [|c' r'].
  - destruct (isspace c); simpl; [reflexivity | now rewrite Hc].
  - simpl. rewrite Hc. simpl in IH. exact IH.
Qed.

Lemma all_chars_strip (f : ascii -> bool) (s : string) :
  all_chars f s = true -> all_chars f (strip s) = true.
Proof. intros H. unfold strip. now apply all_chars_rstrip, all_chars_lstrip. Qed.

Lemma splitlines_no_linebreak (s : string) :
  Forall (fun l => all_chars (fun c => negb (is_linebreak c)) l = true)
         (splitlines s).
Proof.
  assert (forall n s, String.length s <= n ->
                      Forall (fun l => all_chars (fun c => negb (is_linebreak c)) l
                                       = true) (splitlines s)) as H.
  { induction n as [|n IH]; intros [|c r] Hn; simpl in *; try constructor; try lia.
    destruct (is_linebreak c) eqn:Ec.
    - constructor; [reflexivity|]. destruct r as [|c' r'].
      + constructor.
      + destruct (Ascii.eqb c "013" && Ascii.eqb c' "010");
          apply IH; simpl in *; lia.
    - assert (Hr := IH r ltac:(lia)). destruct (splitlines r) as [|l ls].
      + constructor; [|constructor]. simpl. now rewrite Ec.
      + inversion Hr as [|? ? Hl Hls]; subst. constructor; [|assumption].
        simpl. now rewrite Ec, Hl. }
  apply (H (String.length s)). lia.
Qed.

Lemma splitlines_single (t : string) :
  t <> "" -> all_chars (fun c => negb (is_linebreak c)) t = true ->
  splitlines t = [t].
Proof.
  induction t as [|c t IH]; [now intros H|]. intros _ H. simpl in H.
  apply andb_true_iff in H. destruct H as [Hc Ht].
  apply negb_true_iff in Hc. simpl. rewrite Hc.
  destruct t as [|c' t']; [reflexivity|].
  rewrite IH; [reflexivity | discriminate | assumption].
Qed.

Lemma splitlines_line (t rest : string) :
  all_chars (fun c => negb (is_linebreak c)) t = true ->
  splitlines (t ++ String "010" rest) = t :: splitlines rest.
Proof.
  induction t as [|c t IH]; intros H.
  - simpl. now destruct rest.
  - simpl in H. apply andb_true_iff in H. destruct H as [Hc Ht].
    apply negb_true_iff in Hc. cbn [append splitlines]. rewrite Hc.
    now rewrite (IH Ht).
Qed.

Lemma splitlines_concat (ts : list string) :
  Forall clean_token ts ->
  splitlines (String.concat (String "010" "") ts) = ts.
Proof.
  induction 1 as [|t ts [Hne [_ Hnl]] Hts IH]; [reflexivity|].
  destruct ts as [|t' ts'].
  - simpl. now apply splitlines_single.
  - change (String.concat (String "010" "") (t :: t' :: ts'))
      with (t ++ String "010" (String.concat (String "010" "") (t' :: ts')))%string.
    now rewrite splitlines_line, IH.
Qed.

Lemma years2_scan_cleaned (s : string) (ls : list string) :
  years2_scan s (map strip (filter (fun l => negb (is_empty (strip l))) ls))
  = years2_scan s ls.
Proof.
  induction ls as [|l ls IH]; simpl; [reflexivity|].
  destruct (is_empty (strip l)) eqn:E; simpl; [exact IH|].
  now rewrite strip_idempotent, E, IH.
Qed.

(** Every token read from the text area is clean: not empty, stripped, and
    free of line boundaries, whatever the text. *)
Theorem years2_list_clean (years2_text : string) :
  Forall clean_token (years2_list years2_text).
Proof.
  unfold years2_list. apply Forall_forall. intros t Ht.
  apply in_map_iff in Ht. destruct Ht as [l [<- Hl]].
  apply filter_In in Hl. destruct Hl as [Hin Hne].
  apply negb_true_iff, is_empty_false in Hne.
  split; [assumption|]. split; [apply strip_idempotent|].
  apply all_chars_strip.
  exact (proj1 (Forall_forall _ _) (splitlines_no_linebreak years2_text) l Hin).
Qed.

(** Clean tokens written one per line are read back as they are. *)
Theorem years2_list_roundtrip (ts : list string) :
  Forall clean_token ts ->
  years2_list (String.concat (String "010" "") ts) = ts.
Proof.
  intros H. unfold years2_list. rewrite (splitlines_concat ts H).
  induction H as [|t ts [Hne [Hs _]] Hts IH]; [reflexivity|].
  simpl. rewrite Hs. apply is_empty_false in Hne. rewrite Hne. simpl.
  now rewrite Hs, IH.
Qed.

(** Cleaning the lines of the text area changes nothing for the classifier:
    it gives the same result on the token list as on the raw lines. *)
Theorem years2_invalid_years2_list (x : value) (years2_text : string) :
  years2_invalid x (years2_list years2_text)
  = years2_invalid x (splitlines years2_text).
Proof.
  rewrite !years2_invalid_cases.
  destruct (is_none x || is_empty (strip (py_str x)));
    [reflexivity | apply years2_scan_cleaned].
Qed.

(** ** The JSON cell parser, beyond the failing lists *)

(** Off lists the parser never raises: [None], [nan] and the empty text give
    [None]; a dict is returned as it is; a text gives what it decodes to, and
    [None] when it does not decode; a number or a bool gives [None]. *)
Theorem safe_json_loads_off_lists (x : value) :
  (forall l, x <> VList l) ->
  (exists v, safe_json_loads x = Ok v)
  /\ (x = VNone \/ x = VNaN \/ x = VStr "" -> safe_json_loads x = Ok VNone)
  /\ (forall d, x = VDict d -> safe_json_loads x = Ok x)
  /\ (forall s w, x = VStr s -> s <> "" -> json_loads s = Some w ->
                  safe_json_loads x = Ok w)
  /\ (forall s, x = VStr s -> json_loads s = None ->
                safe_json_loads x = Ok VNone)
  /\ ((exists b, x = VBool b) \/ (exists z, x = VInt z) \/ (exists q, x = VFloat q) ->
      safe_json_loads x = Ok VNone).
Proof.
  intros H. rewrite (safe_json_loads_not_list x H).
  split; [eexists; reflexivity|].
  split; [intros [->|[->| ->]]; reflexivity|].
  split; [intros d ->; reflexivity|].
  split; [|split].
  - intros s w -> Hs Hw. apply is_empty_false in Hs. simpl. now rewrite Hs, Hw.
  - intros s -> Hs. simpl. rewrite Hs. now destruct (is_empty s).
  - intros [[b ->]|[[z ->]|[q ->]]]; reflexivity.
Qed.


(** ** The key normaliser and the selector together *)

(** After the normaliser no record holds the alias alone: a dict of the
    result that has [job_period] has [job_time_period] too. *)
Theorem fix_job_period_key_no_alias_alone (l l' : list value) (d : pydict) :
  fix_job_period_key (VList l) = VList l' ->
  In (VDict d) l' ->
  has_key "job_period" d = true ->
  has_key "job_time_period" d = true.
Proof.
  intros [= <-] Hin Hjp. apply in_map_iff in Hin. destruct Hin as [e [He _]].
  destruct (fix_item_spec e) as [Hren [Hcanon [Hnoalias Hother]]].
  destruct e as [| | | | | |l0|d0];
    try (rewrite Hother in He by (intros d1; discriminate); discriminate He).
  destruct (has_key "job_time_period" d0) eqn:Hc.
  - rewrite (Hcanon d0 eq_refl Hc) in He. now injection He as <-.
  - destruct (has_key "job_period" d0) eqn:Ha.
    + destruct (Hren d0 eq_refl Ha Hc) as [d' [E [Hno _]]].
      rewrite E in He. injection He as <-. congruence.
    + rewrite (Hnoalias d0 eq_refl Ha) in He. injection He as <-. congruence.
Qed.

Lemma get_period_fix_item (e : value) : get_period (fix_item e) = get_period e.
Proof.
  destruct e; try reflexivity.
  destruct (has_key "job_period" d) eqn:H1;
    [destruct (has_key "job_time_period" d) eqn:H2|].
  - rewrite fix_item_keeps; [reflexivity | intros d' [= <-]; now right].
  - destruct (fix_item_renames d H1 H2) as [v [Hv ->]].
    unfold get_period, dict_get. unfold has_key in H2.
    rewrite assoc_get_set_same.
    rewrite assoc_get_set_other, assoc_get_remove_same by discriminate.
    rewrite Hv. destruct (assoc_get "job_time_period" d); [discriminate H2|].
    unfold py_or. cbn [truthy]. destruct (truthy v) eqn:Tv; cbn [truthy].
    + now rewrite Tv.
    + reflexivity.
  - rewrite fix_item_keeps; [reflexivity | intros d' [= <-]; now left].
Qed.

Lemma is_present_fix_item (e : value) : is_present (fix_item e) = is_present e.
Proof. unfold is_present. now rewrite get_period_fix_item. Qed.

Lemma find_map_fix_item (l : list value) :
  find is_present (map fix_item l)
  = match find is_present l with
    | Some e => Some (fix_item e)
    | None => None
    end.
Proof.
  induction l as [|e l IH]; simpl; [reflexivity|].
  rewrite is_present_fix_item. now destruct (is_present e).
Qed.

Lemma pick_fix_item (x : value) :
  pick_current_experience (fix_job_period_key x)
  = fix_item (pick_current_experience x).
Proof.
  destruct x; try reflexivity. destruct l as [|e0 l]; [reflexivity|].
  unfold fix_job_period_key, pick_current_experience. cbn [map]. cbv zeta.
  change (fix_item e0 :: map fix_item l) with (map fix_item (e0 :: l)).
  rewrite find_map_fix_item. now destruct (find is_present (e0 :: l)).
Qed.

(** Normalising and selecting commute: the entry selected from the
    normalised list is the normalised form of the entry selected from the
    list as it came. *)
Theorem pick_current_experience_after_fix (x : value) :
  fix_job_period_key (VList [pick_current_experience x])
  = VList [pick_current_experience (fix_job_period_key x)].
Proof. now rewrite pick_fix_item. Qed.

(** ** The field extractor *)

Lemma current_fields_fields_of (x : value) :
  current_fields x = fields_of (pick_current_experience x).
Proof. reflexivity. Qed.


Lemma fields_of_fix_item (e : value) : fields_of (fix_item e) = fields_of e.
Proof.
  destruct e; try reflexivity.
  destruct (has_key "job_period" d) eqn:H1;
    [destruct (has_key "job_time_period" d) eqn:H2|].
  - rewrite fix_item_keeps; [reflexivity | intros d' [= <-]; now right].
  - destruct (fix_item_renames d H1 H2) as [v [Hv E]]. rewrite E.
    unfold fields_of, dict_get.
    rewrite !(assoc_get_set_other "company_name"),
      !(assoc_get_set_other "title"), !(assoc_get_set_other "job_title"),
      !(assoc_get_set_other "linkedin_company_url"),
      !(assoc_get_set_other "linkedin_company_url_cleaned") by discriminate.
    rewrite !(assoc_get_remove_other "company_name"),
      !(assoc_get_remove_other "title"), !(assoc_get_remove_other "job_title"),
      !(assoc_get_remove_other "linkedin_company_url"),
      !(assoc_get_remove_other "linkedin_company_url_cleaned") by discriminate.
    f_equal. f_equal. f_equal.
    rewrite assoc_get_set_same.
    rewrite assoc_get_set_other, assoc_get_remove_same by discriminate.
    unfold has_key in H2. rewrite Hv.
    destruct (assoc_get "job_time_period" d); [discriminate H2|].
    unfold py_or. cbn [truthy]. destruct (truthy v) eqn:Tv; cbn [truthy].
    + now rewrite Tv.
    + reflexivity.
  - rewrite fix_item_keeps; [reflexivity | intros d' [= <-]; now left].
Qed.

(** The four extracted fields do not depend on the normaliser: they are the
    same read from the normalised list and from the list as it came. *)
Theorem current_fields_after_fix (x : value) :
  current_fields (fix_job_period_key x) = current_fields x.
Proof.
  now rewrite !current_fields_fields_of, pick_fix_item, fields_of_fix_item.
Qed.


(** When some entry of the list has a period text with "present" in it, the
    extracted period is a value whose text has "present" in it, in lower
    case: the classifier is handed the period the selector went by. *)
Theorem current_fields_present (l : list value) :
  (exists e, In e l /\ Substring "present" (lower (get_period e))) ->
  let '(period, _, _, _) := current_fields (VList l) in
  Substring "present" (lower (py_str period)).
Proof.
  intros [e [Hin He]]. apply is_present_spec in He.
  rewrite current_fields_fields_of. unfold pick_current_experience.
  destruct l as [|e0 l']; [contradiction Hin|]. cbv zeta.
  destruct (find is_present (e0 :: l')) as [e1|] eqn:F.
  - apply find_some in F. destruct F as [_ H1].
    destruct e1; try discriminate H1. simpl.
    now apply is_present_spec in H1.
  - rewrite (find_none _ _ F e Hin) in He. discriminate He.
Qed.

(** ** The similarity scorer on an empty cell *)

(** An empty [company_name] cell is [nan], and the scorer does not take it
    for blank: it scores the text "nan" against the other side. *)
Theorem similarity_nan (b : value) :
  strip (py_str b) <> "" ->
  similarity VNaN b = similarity (VStr "nan") b
  /\ exists q, similarity VNaN b = VFloat q /\ (0 <= q /\ q <= 1)%Q.
Proof.
  intros Hb. split; [reflexivity|].
  apply is_empty_false in Hb. unfold similarity. rewrite Hb. simpl.
  eexists. split; [reflexivity|].
  destruct (ratio_range "nan" (py_str b)) as [H0 H1].
  set (r := ratio "nan" (py_str b)) in *. split.
  - apply Qle_shift_div_l; [reflexivity | lra].
  - apply Qle_shift_div_r; [reflexivity | lra].
Qed.

(** ** The pipeline, row by row *)













End Program.

(** * Concrete runs *)

Example years2_invalid_examples :
  years2_invalid sample_repr (VStr "Jan 2015 - Present") ["2015"] = "Invalid"
  /\ years2_invalid sample_repr (VStr "Jan 2022 - Present") ["2015"] = "Valid"
  /\ years2_invalid sample_repr (VStr "") ["2015"] = ""
  /\ years2_invalid sample_repr VNone ["2015"] = "".
Proof. repeat split. Qed.

Example fix_job_period_key_examples :
  fix_job_period_key (VList [VDict [("job_period", VStr "P1")]])
  = VList [VDict [("job_time_period", VStr "P1")]]
  /\ fix_job_period_key
       (VList [VDict [("job_period", VStr "P1"); ("job_time_period", VStr "P2")]])
     = VList [VDict [("job_period", VStr "P1"); ("job_time_period", VStr "P2")]].
Proof. split; reflexivity. Qed.

Example pick_current_experience_examples :
  pick_current_experience sample_repr (VList [past; current]) = current
  /\ pick_current_experience sample_repr (VList [past]) = past
  /\ pick_current_experience sample_repr (VList []) = VNone
  /\ pick_current_experience sample_repr VNone = VNone.
Proof. repeat split. Qed.

Example safe_json_loads_examples :
  safe_json_loads sample_json_loads VNone = Ok VNone
  /\ safe_json_loads sample_json_loads (VStr "") = Ok VNone
  /\ safe_json_loads sample_json_loads (VStr "not json") = Ok VNone
  /\ safe_json_loads sample_json_loads (VDict [("a", VInt 1)])
     = Ok (VDict [("a", VInt 1)])
  /\ safe_json_loads sample_json_loads (VStr sample_json) = Ok sample_experiences.
Proof. repeat split. Qed.

Example similarity_examples :
  similarity sample_repr (VStr "Acme Inc") (VStr "Acme Incorporated")
  = VFloat (1600 # 2500)
  /\ similarity sample_repr (VStr "") (VStr "Acme") = VStr "".
Proof. split; reflexivity. Qed.

Example pipeline_example :
  pipeline sample_json_loads sample_repr ["2021"; "2020"] sample_table
  = Ok (sample_table ++
        [("experiences_json",
          [VList [VDict [("company_name", VStr "Acme");
                         ("job_time_period", VStr "Jan 2021 - Present")]];
           VNone; VNone]);
         ("current_job_time_period",
          [VStr "Jan 2021 - Present"; VStr ""; VStr ""]);
         ("current_company_name_from_exp", [VStr "Acme"; VStr ""; VStr ""]);
         ("current_job_title_from_exp", [VStr ""; VStr ""; VStr ""]);
         ("current_linkedin_company_url_from_exp", [VStr ""; VStr ""; VStr ""]);
         ("current_job_time_period_validity", [VStr "Invalid"; VStr ""; VStr ""]);
         ("company_name_similarity_to_exp",
          [VFloat (800 # 800); VStr ""; VStr ""])]).
Proof. reflexivity. Qed.

(** * Witnesses and counterexamples *)

(** The reordering clause of C2 at two tokens taken in both orders. *)
Lemma years2_invalid_spec_witness :
  Permutation ["2014"; "2015"] ["2015"; "2014"]
  /\ years2_invalid sample_repr (VStr "Jan 2015 - Present") ["2015"; "2014"]
     = years2_invalid sample_repr (VStr "Jan 2015 - Present") ["2014"; "2015"].
Proof.
  split; [apply perm_swap|].
  apply (years2_invalid_spec sample_repr (VStr "Jan 2015 - Present")
           ["2014"; "2015"]).
  apply perm_swap.
Defined.

(** C10 at the integer 2015. *)
Lemma years2_invalid_coerces_witness :
  VInt 2015 <> VNone
  /\ years2_invalid sample_repr (VInt 2015) ["2015"]
     = years2_invalid sample_repr (VStr (py_str sample_repr (VInt 2015))) ["2015"].
Proof.
  split; [discriminate|].
  apply (proj1 (years2_invalid_coerces sample_repr)). discriminate.
Defined.

(** C3 at a list whose second entry is the current one. *)
Lemma pick_current_experience_spec_witness :
  (forall e', In e' [past] ->
              ~ Substring "present" (lower (get_period sample_repr e')))
  /\ Substring "present" (lower (get_period sample_repr current))
  /\ pick_current_experience sample_repr (VList [past; current]) = current.
Proof.
  assert (forall e', In e' [past] ->
                     ~ Substring "present" (lower (get_period sample_repr e')))
    as Hpast.
  { intros e' [<-|[]]. rewrite <- contains_Substring. discriminate. }
  assert (Substring "present" (lower (get_period sample_repr current))) as Hcur.
  { apply contains_Substring. reflexivity. }
  split; [exact Hpast|]. split; [exact Hcur|].
  exact (proj1 (proj2 (proj2 (pick_current_experience_spec sample_repr
                                (VList [past; current]))))
           [past] current [] eq_refl Hpast Hcur).
Defined.

(** C8 at the same list. *)
Lemma pick_current_experience_member_witness :
  pick_current_experience sample_repr (VList [past; current]) = current
  /\ current <> VNone
  /\ exists l, VList [past; current] = VList l /\ In current l.
Proof.
  split; [reflexivity|]. split; [discriminate|].
  apply (pick_current_experience_member sample_repr (VList [past; current]) current).
  - reflexivity.
  - discriminate.
Defined.

(** C6 at a list of one record keyed by the alias. *)
Lemma fix_job_period_key_spec_witness :
  exists l',
    fix_job_period_key (VList [VDict [("job_period", VStr "P1")]]) = VList l'
    /\ List.length l' = 1
    /\ forall i e,
        nth_error [VDict [("job_period", VStr "P1")]] i = Some e ->
        exists e', nth_error l' i = Some e' /\ entry_normalised e e'.
Proof.
  exact (proj1 (fix_job_period_key_spec (VList [VDict [("job_period", VStr "P1")]]))
           [VDict [("job_period", VStr "P1")]] eq_refl).
Defined.

(** C7 at two company names. *)
Lemma similarity_spec_witness :
  strip "Acme Inc" <> "" /\ strip "Acme Incorporated" <> ""
  /\ exists q,
      similarity sample_repr (VStr "Acme Inc") (VStr "Acme Incorporated") = VFloat q
      /\ (0 <= q /\ q <= 1)%Q.
Proof.
  split; [discriminate|]. split; [discriminate|].
  apply (proj1 (proj2 (similarity_spec sample_repr "Acme Inc" "Acme Incorporated")));
    discriminate.
Defined.

Lemma sample_table_wf : table_wf 3 sample_table.
Proof. repeat constructor. Qed.

Lemma sample_table_csv : csv_table sample_table.
Proof. repeat constructor. Qed.

Lemma sample_table_fresh (c : string) :
  In c derived_columns -> ~ In c (columns sample_table).
Proof.
  unfold derived_columns. simpl. intros H [E|[E|[]]]; subst c;
    repeat (destruct H as [H|H]; [discriminate H|]); exact H.
Qed.

(** C1 at the three-row table. *)
Lemma pipeline_appends_witness :
  table_wf 3 sample_table /\ csv_table sample_table
  /\ In "experiences" (columns sample_table)
  /\ exists cols,
      pipeline sample_json_loads sample_repr ["2021"; "2020"] sample_table
      = Ok (sample_table ++ cols)
      /\ columns cols
         = ["experiences_json"; "current_job_time_period";
            "current_company_name_from_exp"; "current_job_title_from_exp";
            "current_linkedin_company_url_from_exp";
            "current_job_time_period_validity";
            "company_name_similarity_to_exp"]
      /\ table_wf 3 cols
      /\ nrows (sample_table ++ cols) = nrows sample_table.
Proof.
  split; [exact sample_table_wf|]. split; [exact sample_table_csv|].
  split; [simpl; tauto|].
  apply (pipeline_appends sample_json_loads sample_repr ["2021"; "2020"] 3
           sample_table sample_table_wf sample_table_csv).
  - simpl. tauto.
  - exact sample_table_fresh.
Defined.

(** The run on the table uploaded again: the column it already has is
    overwritten where it stands. *)
Lemma pipeline_reuploaded (json_loads : string -> option value)
      (repr_other : value -> string) (ys : list string) :
  pipeline json_loads repr_other ys reuploaded_table
  = Ok [("experiences", [VNaN]);
        ("current_job_time_period", [VStr ""]);
        ("experiences_json", [VNone]);
        ("current_company_name_from_exp", [VStr ""]);
        ("current_job_title_from_exp", [VStr ""]);
        ("current_linkedin_company_url_from_exp", [VStr ""]);
        ("current_job_time_period_validity", [VStr ""]);
        ("company_name_similarity_to_exp", [VStr ""])].
Proof. reflexivity. Qed.

(** C1 fails as stated: on the table uploaded again the output is not the
    input followed by new columns, whatever the decoder and the tokens. *)
Lemma pipeline_appends_counterexample :
  table_wf 1 reuploaded_table /\ csv_table reuploaded_table
  /\ ~ exists json_loads repr_other ys cols,
        pipeline json_loads repr_other ys reuploaded_table
        = Ok (reuploaded_table ++ cols).
Proof.
  split; [repeat constructor|]. split; [repeat constructor|].
  intros [jl [ro [ys [cols H]]]]. rewrite pipeline_reuploaded in H.
  unfold reuploaded_table in H. simpl in H. discriminate H.
Qed.

Lemma no_company_table_wf : table_wf 2 no_company_table.
Proof. repeat constructor. Qed.

Lemma no_company_table_csv : csv_table no_company_table.
Proof. repeat constructor. Qed.

(** C5 at a table without the [company_name] column. *)
Lemma pipeline_missing_column_witness :
  table_wf 2 no_company_table /\ csv_table no_company_table
  /\ In "experiences" (columns no_company_table)
  /\ ~ In "company_name" (columns no_company_table)
  /\ exists df',
      pipeline sample_json_loads sample_repr ["2021"] no_company_table = Ok df'
      /\ table_wf 2 df'
      /\ (~ In "company_name" (columns no_company_table) ->
          df_getitem "company_name_similarity_to_exp" df'
          = Ok (repeat (VStr "") 2)).
Proof.
  split; [exact no_company_table_wf|]. split; [exact no_company_table_csv|].
  split; [simpl; tauto|].
  split; [simpl; intros [H|[]]; discriminate H|].
  apply (proj2 (pipeline_missing_column sample_json_loads sample_repr ["2021"] 2
                  no_company_table no_company_table_wf no_company_table_csv)).
  simpl. tauto.
Defined.

(** C5 fails as stated: without the [experiences] column the run does not
    complete, whatever the decoder and the tokens. *)
Lemma pipeline_missing_column_counterexample :
  table_wf 1 no_experiences_table /\ csv_table no_experiences_table
  /\ ~ exists json_loads repr_other ys df',
        pipeline json_loads repr_other ys no_experiences_table = Ok df'.
Proof.
  split; [repeat constructor|]. split; [repeat constructor|].
  intros [jl [ro [ys [df' H]]]]. discriminate H.
Qed.

(** * Witnesses of the further properties *)

(** The decoded text of the sample cell is returned without an error. *)
Lemma safe_json_loads_off_lists_witness :
  (forall l, VStr sample_json <> VList l)
  /\ exists v, safe_json_loads sample_json_loads (VStr sample_json) = Ok v.
Proof.
  assert (forall l, VStr sample_json <> VList l) as H by (intros l; discriminate).
  split; [exact H|].
  exact (proj1 (safe_json_loads_off_lists sample_json_loads (VStr sample_json) H)).
Defined.


(** A record with both keys keeps both. *)
Lemma fix_job_period_key_no_alias_alone_witness :
  fix_job_period_key
    (VList [VDict [("job_period", VStr "P1"); ("job_time_period", VStr "P2")]])
  = VList [VDict [("job_period", VStr "P1"); ("job_time_period", VStr "P2")]]
  /\ has_key "job_period" [("job_period", VStr "P1"); ("job_time_period", VStr "P2")]
     = true
  /\ has_key "job_time_period"
       [("job_period", VStr "P1"); ("job_time_period", VStr "P2")] = true.
Proof.
  split; [reflexivity|]. split; [reflexivity|].
  apply (fix_job_period_key_no_alias_alone
           [VDict [("job_period", VStr "P1"); ("job_time_period", VStr "P2")]]
           [VDict [("job_period", VStr "P1"); ("job_time_period", VStr "P2")]]
           [("job_period", VStr "P1"); ("job_time_period", VStr "P2")]).
  - reflexivity.
  - now left.
  - reflexivity.
Defined.

(** The period extracted from the two sample records is the current one. *)
Lemma current_fields_present_witness :
  (exists e, In e [past; current]
             /\ Substring "present" (lower (get_period sample_repr e)))
  /\ let '(period, _, _, _) := current_fields sample_repr (VList [past; current]) in
     Substring "present" (lower (py_str sample_repr period)).
Proof.
  assert (exists e, In e [past; current]
                    /\ Substring "present" (lower (get_period sample_repr e))) as H.
  { exists current. split; [simpl; tauto|]. apply contains_Substring. reflexivity. }
  split; [exact H|].
  exact (current_fields_present sample_repr [past; current] H).
Defined.

Lemma default_years_clean :
  Forall clean_token
    ["2018"; "2017"; "2016"; "2015"; "2014"; "2013"; "2012"; "2011"; "2010";
     "2009"; "2008"; "2007"; "2006"; "2005"; "2004"; "2003"; "2002"; "2001";
     "2000"].
Proof. repeat constructor; discriminate. Qed.

(** The default text of the text area is read as the years 2018 to 2000. *)
Lemma years2_list_roundtrip_witness :
  Forall clean_token
    ["2018"; "2017"; "2016"; "2015"; "2014"; "2013"; "2012"; "2011"; "2010";
     "2009"; "2008"; "2007"; "2006"; "2005"; "2004"; "2003"; "2002"; "2001";
     "2000"]
  /\ years2_list default_years2_text
     = ["2018"; "2017"; "2016"; "2015"; "2014"; "2013"; "2012"; "2011"; "2010";
        "2009"; "2008"; "2007"; "2006"; "2005"; "2004"; "2003"; "2002"; "2001";
        "2000"].
Proof.
  split; [exact default_years_clean|].
  exact (years2_list_roundtrip _ default_years_clean).
Defined.

(** An empty [company_name] cell against the company "Acme". *)
Lemma similarity_nan_witness :
  strip (py_str sample_repr (VStr "Acme")) <> ""
  /\ similarity sample_repr VNaN (VStr "Acme")
     = similarity sample_repr (VStr "nan") (VStr "Acme").
Proof.
  split; [discriminate|].
  apply (similarity_nan sample_repr (VStr "Acme")). discriminate.
Defined.







